(** * mythix-orm-solr: the SOLR connection driver

    A shallow embedding of [lib/solr-connection.js] (class [SOLRConnection])
    and of the empty [SOLRQueryGenerator] class, with the properties of the
    driver's specification stated over it.

    JavaScript objects are mutable, so the connection ([this]) and the part
    of the surrounding realm the driver can touch are threaded through every
    method as an explicit state; an exception is a [Throw] completion that
    keeps the state reached so far. *)

From Stdlib Require Import String Ascii List Bool Arith ZArith Lia.
From Stdlib Require Import DecimalString Permutation.
Import ListNotations.
Open Scope string_scope.

Set Warnings "-register-all".

(** ** JavaScript values *)

Module Js.

(** The values the driver's arguments range over.  A model class is a
    function with a static [getModelName()]; every other function is
    opaque.  Numbers are the integers ([NaN] is left out). *)
Inductive Value : Type :=
| Undefined
| Null
| Bool (b : bool)
| Number (z : Z)
| Str (s : string)
| Array (items : list Value)
| Object (props : list (string * Value))
| ModelClass (modelName : string)
| Function (id : nat).

(** [ToBoolean]: what [!x], [!!x] and [filter(Boolean)] test. *)
Definition truthy (v : Value) : bool :=
  match v with
  | Undefined | Null => false
  | Bool b => b
  | Number z => negb (Z.eqb z 0)
  | Str s => negb (String.eqb s "")
  | Array _ | Object _ | ModelClass _ | Function _ => true
  end.

(** Writing a data property of the object's own: an existing key keeps its
    place, a new key goes last. *)
Fixpoint defineProp (key : string) (v : Value) (props : list (string * Value))
  : list (string * Value) :=
  match props with
  | [] => [(key, v)]
  | (k, w) :: rest =>
      if String.eqb k key then (k, v) :: rest
      else (k, w) :: defineProp key v rest
  end.

Definition hasOwn (key : string) (props : list (string * Value)) : bool :=
  existsb (fun p => String.eqb (fst p) key) props.

(** Property assignment [obj[key] = v] on a plain object.  One key makes
    no property: unless the object has [__proto__] as a property of its
    own, assigning it goes to the setter inherited from
    [Object.prototype], which replaces the prototype and leaves the own
    properties as they are.  (Prototypes are not part of the values here;
    see [getProp].) *)
Definition setProp (key : string) (v : Value) (props : list (string * Value))
  : list (string * Value) :=
  if String.eqb key "__proto__" && negb (hasOwn key props) then props
  else defineProp key v props.

Fixpoint lookupProp (key : string) (props : list (string * Value)) : Value :=
  match props with
  | [] => Undefined
  | (k, w) :: rest => if String.eqb k key then w else lookupProp key rest
  end.

Definition decimal (n : nat) : string := NilEmpty.string_of_uint (Nat.to_uint n).

(** The array index a property key denotes, if it is one (a canonical
    decimal numeral). *)
Definition arrayIndex (key : string) : option nat :=
  match NilEmpty.uint_of_string key with
  | Some u =>
      if String.eqb (decimal (Nat.of_uint u)) key then Some (Nat.of_uint u)
      else None
  | None => None
  end.

(** Property read [v[key]] on a value that is not null or undefined (the
    driver only reads properties of such values): own data properties of a
    plain object, the elements of an array, the characters of a string.
    JavaScript goes on to the prototype chain when the value has no such
    property of its own; prototypes are not modelled, so the read is exact
    for keys the value owns, and the theorems that depend on what is read
    read own keys only. *)
Definition getProp (key : string) (v : Value) : Value :=
  match v with
  | Object props => lookupProp key props
  | Array items =>
      match arrayIndex key with
      | Some i => nth i items Undefined
      | None => Undefined
      end
  | Str str =>
      match arrayIndex key with
      | Some i =>
          match String.get i str with
          | Some c => Str (String c EmptyString)
          | None => Undefined
          end
      | None => Undefined
      end
  | _ => Undefined
  end.

(** The array index a key denotes, as a number: a canonical decimal
    numeral below [2^32 - 1].  [Object.keys] lists such keys first. *)
Definition integerKey (key : string) : option N :=
  match NilEmpty.uint_of_string key with
  | Some u =>
      let n := N.of_uint u in
      if String.eqb (NilEmpty.string_of_uint (N.to_uint n)) key
         && (n <? 4294967295)%N
      then Some n
      else None
  | None => None
  end.

Definition isIntegerKey (key : string) : bool :=
  match integerKey key with
  | Some _ => true
  | None => false
  end.

(** The integer keys among some keys, each with its number. *)
Definition integerKeys (ks : list string) : list (N * string) :=
  flat_map (fun k => match integerKey k with
                     | Some n => [(n, k)]
                     | None => []
                     end) ks.

Fixpoint insertByIndex (x : N * string) (sorted : list (N * string))
  : list (N * string) :=
  match sorted with
  | [] => [x]
  | y :: rest =>
      if (fst x <=? fst y)%N then x :: y :: rest
      else y :: insertByIndex x rest
  end.

Definition sortByIndex (l : list (N * string)) : list (N * string) :=
  fold_right insertByIndex [] l.

(** The own keys of a plain object in the order [Object.keys] (and
    [for-in], [JSON.stringify]) lists them: integer keys in ascending
    numeric order, then the other keys in the order of their creation. *)
Definition ownKeys (props : list (string * Value)) : list string :=
  (map snd (sortByIndex (integerKeys (map fst props)))
   ++ filter (fun k => negb (isIntegerKey k)) (map fst props))%list.

(** [Object.keys]: own enumerable string keys. *)
Definition keys (v : Value) : list string :=
  match v with
  | Object props => ownKeys props
  | Array items => map decimal (seq 0 (List.length items))
  | Str s => map decimal (seq 0 (String.length s))
  | _ => []
  end.

End Js.

(** ** Errors *)

(** The class of an error.  The driver raises built-in classes only:
    [new Error(msg)] by its own [throw] statements, [ReferenceError] for an
    unresolvable identifier, [TypeError] for a call of something that is
    no function.  [ClsNamed] stands for a class a program declares itself,
    [class NotStarted extends Error] say, known by its name. *)
Inductive ErrorClass : Type :=
| ClsError
| ClsReferenceError
| ClsTypeError
| ClsNamed (name : string).

Record JsError : Type := mkError { errClass : ErrorClass; errMessage : string }.

Definition Error (msg : string) : JsError := mkError ClsError msg.
Definition ReferenceError (msg : string) : JsError := mkError ClsReferenceError msg.
Definition TypeError (msg : string) : JsError := mkError ClsTypeError msg.

(** The text every stub method of the driver ends its message with. *)
Definition notSupportedText : string :=
  ": This operation is not supported for this connection type.".

(** [`${className}::${label}: This operation is not supported for this
    connection type.`] *)
Definition notSupportedMessage (className label : string) : string :=
  className ++ "::" ++ label ++ notSupportedText.

(** [s.endsWith(suffix)] and [s.includes(needle)]. *)
Fixpoint endsWith (suffix s : string) : bool :=
  if String.eqb s suffix then true
  else match s with
       | EmptyString => false
       | String _ rest => endsWith suffix rest
       end.

Fixpoint includes (needle s : string) : bool :=
  if String.prefix needle s then true
  else match s with
       | EmptyString => false
       | String _ rest => includes needle rest
       end.

(** The error taxonomy of the specification, read on JavaScript errors.
    An error of a class named after an entry of the taxonomy is of that
    kind.  The driver declares no error class and composes one message
    only, the not-supported one: a plain [Error] ending in
    [notSupportedText] is the specification's [UnsupportedOperation].
    Whatever else is raised is [OtherError]. *)
Inductive ErrorKind : Type := NotStarted | UnsupportedOperation | OtherError.

Definition errorKind (e : JsError) : ErrorKind :=
  match errClass e with
  | ClsError =>
      if endsWith notSupportedText (errMessage e) then UnsupportedOperation
      else OtherError
  | ClsNamed name =>
      if String.eqb name "NotStarted" then NotStarted
      else if String.eqb name "UnsupportedOperation" then UnsupportedOperation
      else OtherError
  | _ => OtherError
  end.

(** ** The transport collaborator *)

(** Modelled from the spec: the transport class of [./http-client] is not
    among the sources.  A handle is an object, known by its identity; the
    specification gives it one capability, [request(method, path, body,
    headers)], whose uses are logged in the state. *)
Record HTTPClient : Type := mkClient { clientId : nat }.

Record Request : Type := mkRequest {
  reqVia : HTTPClient;
  reqMethod : string;
  reqPath : string;
  reqBody : string
}.

(** ** The connection object and the state *)

(** The generator held by the connection: the driver's own (empty) class,
    or the one given in the options. *)
Inductive QueryGenerator : Type :=
| SOLRQueryGenerator
| ProvidedGenerator (g : Js.Value).

Record SOLRConnection : Type := mkConnection {
  className : string;               (* this.constructor.name *)
  queryGenerator : QueryGenerator;  (* set by the constructor *)
  httpClient : option HTTPClient    (* null, or the handle made by start *)
}.

(** What a method can read and change: [this], every [HTTPClient] ever
    constructed, the requests sent through the transport, and the binding
    (if any) of the global name [Utils]. *)
Record State : Type := mkState {
  this : SOLRConnection;
  created : list HTTPClient;
  requests : list Request;
  globalUtils : option (SOLRConnection -> list string -> list string)
}.

Definition setHttpClient (h : option HTTPClient) (s : State) : State :=
  mkState (mkConnection (className (this s)) (queryGenerator (this s)) h)
          (created s) (requests s) (globalUtils s).

(** ** Completions, promises and the method monad *)

Inductive Completion (A : Type) : Type :=
| Normal (a : A)
| Throw (e : JsError).
Arguments Normal {A} a.
Arguments Throw {A} e.

Inductive Promise (A : Type) : Type :=
| Fulfilled (a : A)
| Rejected (e : JsError).
Arguments Fulfilled {A} a.
Arguments Rejected {A} e.

Definition M (A : Type) : Type := State -> Completion A * State.

Definition ret {A} (a : A) : M A := fun s => (Normal a, s).

Definition throw {A} (e : JsError) : M A := fun s => (Throw e, s).

Definition bind {A B} (m : M A) (k : A -> M B) : M B :=
  fun s =>
    match m s with
    | (Normal a, s') => k a s'
    | (Throw e, s') => (Throw e, s')
    end.

Notation "x <- m ;; k" := (bind m (fun x => k))
  (at level 61, m at next level, right associativity).

(** An [async] method never throws to its caller: the body's completion
    settles the promise it returns. *)
Definition async {A} (body : M A) : M (Promise A) :=
  fun s =>
    match body s with
    | (Normal a, s') => (Normal (Fulfilled a), s')
    | (Throw e, s') => (Normal (Rejected e), s')
    end.

(** [await p]: the value of a fulfilled promise, the reason of a rejected
    one thrown. *)
Definition await {A} (call : M (Promise A)) : M A :=
  p <- call ;;
  match p with
  | Fulfilled a => ret a
  | Rejected e => throw e
  end.

(** ** Construction and lifecycle *)

(** [constructor(_options)]: the base class takes a generator given in the
    options; without one the driver installs its own.  [httpClient] starts
    as [null]. *)
Definition construct (_options : Js.Value) : SOLRConnection :=
  mkConnection "SOLRConnection"
    (if Js.truthy _options && Js.truthy (Js.getProp "queryGenerator" _options)
     then ProvidedGenerator (Js.getProp "queryGenerator" _options)
     else SOLRQueryGenerator)
    None.

(** A realm in which [conn] lives and nothing has happened yet. *)
Definition freshState (conn : SOLRConnection) : State := mkState conn [] [] None.

(** [return !!this.httpClient;] *)
Definition isStarted (s : State) : bool :=
  match httpClient (this s) with
  | Some _ => true
  | None => false
  end.

(** [new HTTPClient()]: a new object, distinct from every one made before
    (its identity lies above every identity in use). *)
Definition newHTTPClient : M HTTPClient :=
  fun s =>
    let h := mkClient (S (list_max (map clientId (created s)))) in
    (Normal h, mkState (this s) (created s ++ [h]) (requests s) (globalUtils s)).

(** [async start() { this.httpClient = new HTTPClient(); }] *)
Definition start : M (Promise Js.Value) :=
  async (h <- newHTTPClient ;;
         fun s => (Normal Js.Undefined, setHttpClient (Some h) s)).

(** [async stop() { this.httpClient = null; }] *)
Definition stop : M (Promise Js.Value) :=
  async (fun s => (Normal Js.Undefined, setHttpClient None s)).

(** ** The unsupported operations *)

(** [throw new Error(`${this.constructor.name}::<label>: This operation is
    not supported for this connection type.`);] *)
Definition throwNotSupported {A} (label : string) : M A :=
  fun s => throw (Error (notSupportedMessage (className (this s)) label)) s.

(** *** Table, column and index operations *)

Definition dropTable (Model options : Js.Value) : M (Promise Js.Value) :=
  async (throwNotSupported "dropTable").

Definition createTable (Model options : Js.Value) : M (Promise Js.Value) :=
  async (throwNotSupported "createTable").

Definition defineTable : M (Promise Js.Value) :=
  async (throwNotSupported "defineTable").

Definition defineConstraints : M (Promise Js.Value) :=
  async (throwNotSupported "defineConstraints").

Definition defineIndexes : M (Promise Js.Value) :=
  async (throwNotSupported "defineIndexes").

Definition alterTable (Model newModelAttributes options : Js.Value)
  : M (Promise Js.Value) :=
  async (throwNotSupported "renameTable").

Definition dropColumn (Field options : Js.Value) : M (Promise Js.Value) :=
  async (throwNotSupported "dropColumn").

Definition alterColumn (Field newFieldAttributes options : Js.Value)
  : M (Promise Js.Value) :=
  async (throwNotSupported "alterColumn").

Definition addColumn (Field options : Js.Value) : M (Promise Js.Value) :=
  async (throwNotSupported "addColumn").

Definition addIndex (Model indexFields options : Js.Value)
  : M (Promise Js.Value) :=
  async (throwNotSupported "addIndex").

Definition dropIndex (Model indexFields options : Js.Value)
  : M (Promise Js.Value) :=
  async (throwNotSupported "addIndex").

(** *** Data operations *)

Definition insert (Model models _options : Js.Value) : M (Promise Js.Value) :=
  async (throwNotSupported "insert").

Definition upsert (Model models _options : Js.Value) : M (Promise Js.Value) :=
  async (throwNotSupported "upsert").

Definition update (Model models _options : Js.Value) : M (Promise Js.Value) :=
  async (throwNotSupported "update").

Definition updateAll (_queryEngine model _options : Js.Value)
  : M (Promise Js.Value) :=
  async (throwNotSupported "updateAll").

Definition destroyModels (Model _models _options : Js.Value)
  : M (Promise Js.Value) :=
  async (throwNotSupported "destroyModels").

Definition destroy (_queryEngineOrModel modelsOrOptions _options : Js.Value)
  : M (Promise Js.Value) :=
  async (throwNotSupported "destroy").

Definition aggregate (_queryEngine _literal options : Js.Value)
  : M (Promise Js.Value) :=
  async (throwNotSupported "aggregate").

Definition average (_queryEngine _field options : Js.Value)
  : M (Promise Js.Value) :=
  async (throwNotSupported "average").

Definition count (_queryEngine _field options : Js.Value)
  : M (Promise Js.Value) :=
  async (throwNotSupported "count").

Definition min (_queryEngine _field options : Js.Value)
  : M (Promise Js.Value) :=
  async (throwNotSupported "min").

Definition max (_queryEngine _field options : Js.Value)
  : M (Promise Js.Value) :=
  async (throwNotSupported "max").

Definition sum (_queryEngine _field options : Js.Value)
  : M (Promise Js.Value) :=
  async (throwNotSupported "sum").

Definition pluck (_queryEngine _fields _options : Js.Value)
  : M (Promise Js.Value) :=
  async (throwNotSupported "pluck").

Definition exists_ (queryEngine options : Js.Value) : M (Promise Js.Value) :=
  async (throwNotSupported "exists").

Definition truncate (Model options : Js.Value) : M (Promise Js.Value) :=
  async (throwNotSupported "truncate").

Definition query (lucene options : Js.Value) : M (Promise Js.Value) :=
  async (throwNotSupported "query").

(** [transaction(callback, options)]: the callback is a function from the
    connection handed to it to a computation. *)
Definition Callback : Type := SOLRConnection -> M Js.Value.

Definition transaction (callback : Callback) (options : Js.Value)
  : M (Promise Js.Value) :=
  async (throwNotSupported "transaction").

(** *** [select], an async generator method *)

(** An async generator object.  Calling the method runs none of its body:
    the object starts suspended at the start, and the body runs on the
    first [next()].  The body of [select] has no [yield], so the only other
    state is completed. *)
Inductive GeneratorState : Type := SuspendedStart | Completed.

Record AsyncGenerator : Type := mkGenerator {
  genState : GeneratorState;
  genBody : M Js.Value
}.

Record IteratorResult : Type := mkIteratorResult {
  value : Js.Value;
  done : bool
}.

(** [async *select(_queryEngine, _options) { throw new Error(...); }] *)
Definition select (_queryEngine _options : Js.Value) : M AsyncGenerator :=
  ret (mkGenerator SuspendedStart (throwNotSupported "select")).

(** [gen.next()]: a pull.  From the start the body runs to its end; an
    exception rejects the promise of this pull, a return fulfils it with
    [done: true].  Either way the generator is completed, and every later
    pull fulfils with [{ value: undefined, done: true }].  The generator is
    returned along with the promise. *)
Definition next (gen : AsyncGenerator)
  : M (Promise IteratorResult * AsyncGenerator) :=
  match genState gen with
  | SuspendedStart =>
      fun s =>
        match genBody gen s with
        | (Normal v, s') =>
            (Normal (Fulfilled (mkIteratorResult v true),
                     mkGenerator Completed (genBody gen)), s')
        | (Throw e, s') =>
            (Normal (Rejected e, mkGenerator Completed (genBody gen)), s')
        end
  | Completed =>
      ret (Fulfilled (mkIteratorResult Js.Undefined true), gen)
  end.

(** *** [createTables] and [dropTables] *)

(** [Nife.instanceOf(v, 'array', 'function')] *)
Definition isArrayOrFunction (v : Js.Value) : bool :=
  match v with
  | Js.Array _ | Js.ModelClass _ | Js.Function _ => true
  | _ => false
  end.

(** [Nife.toArray(v)] *)
Definition toArray (v : Js.Value) : list Js.Value :=
  match v with
  | Js.Array items => items
  | _ => [v]
  end.

(** [Model.getModelName()] on a truthy value: a model class answers with
    its name.  Primitives, arrays and plain objects that carry data only
    have no such method, and the call is a [TypeError].  (An object given a
    callable [getModelName] of its own would run it; what an opaque
    function does is not modelled, and no theorem below takes such an
    entry: see [isModelsArgument] and [lacksGetModelName].) *)
Definition getModelName (Model : Js.Value) : M string :=
  match Model with
  | Js.ModelClass modelName => ret modelName
  | _ => throw (TypeError "Model.getModelName is not a function")
  end.

(** The first loop: [modelMap[Model.getModelName()] = Model] for each
    model, from left to right. *)
Fixpoint collectModels (Models : list Js.Value)
  (modelMap : list (string * Js.Value)) : M (list (string * Js.Value)) :=
  match Models with
  | [] => ret modelMap
  | Model :: rest =>
      modelName <- getModelName Model ;;
      collectModels rest (Js.setProp modelName Model modelMap)
  end.

(** [Utils.sortModelNamesByCreationOrder(this, modelNames)].  The module
    neither declares nor imports [Utils], so the name can only resolve to a
    global binding; without one the reference itself throws. *)
Definition sortModelNamesByCreationOrder (modelNames : list string)
  : M (list string) :=
  fun s =>
    match globalUtils s with
    | Some sort => (Normal (sort (this s) modelNames), s)
    | None => (Throw (ReferenceError "Utils is not defined"), s)
    end.

(** The second loop: [results.push(await this.<method>(Model, options))]
    for each name in turn.  [method] is looked up on [this], so it is the
    driver's own method or an override. *)
Fixpoint forEachModel (method : Js.Value -> Js.Value -> M (Promise Js.Value))
  (modelMap options : Js.Value) (names : list string)
  (results : list Js.Value) : M (list Js.Value) :=
  match names with
  | [] => ret results
  | modelName :: rest =>
      r <- await (method (Js.getProp modelName modelMap) options) ;;
      forEachModel method modelMap options rest (results ++ [r])
  end.

(** The part [createTables] and [dropTables] have in common, up to the
    sorted names. *)
Definition sortedModels (_Models : Js.Value) : M (Js.Value * list string) :=
  modelMap <-
    (if isArrayOrFunction _Models
     then props <- collectModels (filter Js.truthy (toArray _Models)) [] ;;
          ret (Js.Object props)
     else ret _Models) ;;
  sortedModelNames <- sortModelNamesByCreationOrder (Js.keys modelMap) ;;
  ret (modelMap, sortedModelNames).

Definition createTablesVia
  (createTable : Js.Value -> Js.Value -> M (Promise Js.Value))
  (_Models options : Js.Value) : M (Promise Js.Value) :=
  async
    (if negb (Js.truthy _Models) then ret Js.Undefined
     else
       sorted <- sortedModels _Models ;;
       results <- forEachModel createTable (fst sorted) options (snd sorted) [] ;;
       ret (Js.Array results)).

(** [dropTables] walks the sorted names from the last to the first. *)
Definition dropTablesVia
  (dropTable : Js.Value -> Js.Value -> M (Promise Js.Value))
  (_Models options : Js.Value) : M (Promise Js.Value) :=
  async
    (if negb (Js.truthy _Models) then ret Js.Undefined
     else
       sorted <- sortedModels _Models ;;
       results <- forEachModel dropTable (fst sorted) options
                    (rev (snd sorted)) [] ;;
       ret (Js.Array results)).

Definition createTables : Js.Value -> Js.Value -> M (Promise Js.Value) :=
  createTablesVia createTable.

Definition dropTables : Js.Value -> Js.Value -> M (Promise Js.Value) :=
  dropTablesVia dropTable.

(** ** Calling a method by name *)

(** The table, column and index operations of the specification. *)
Inductive DDLOperation : Type :=
| OpCreateTable | OpDropTable | OpAlterTable | OpAddColumn | OpDropColumn
| OpAddIndex | OpDropIndex | OpDefineTable | OpDefineConstraints
| OpDefineIndexes.

Definition allDDLOperations : list DDLOperation :=
  [OpCreateTable; OpDropTable; OpAlterTable; OpAddColumn; OpDropColumn;
   OpAddIndex; OpDropIndex; OpDefineTable; OpDefineConstraints;
   OpDefineIndexes].

(** The name of the method that is called. *)
Definition ddlName (op : DDLOperation) : string :=
  match op with
  | OpCreateTable => "createTable"
  | OpDropTable => "dropTable"
  | OpAlterTable => "alterTable"
  | OpAddColumn => "addColumn"
  | OpDropColumn => "dropColumn"
  | OpAddIndex => "addIndex"
  | OpDropIndex => "dropIndex"
  | OpDefineTable => "defineTable"
  | OpDefineConstraints => "defineConstraints"
  | OpDefineIndexes => "defineIndexes"
  end.

(** [connection[name](...args)]: a missing argument is [undefined]. *)
Definition callDDL (op : DDLOperation) (args : list Js.Value)
  : M (Promise Js.Value) :=
  let arg i := nth i args Js.Undefined in
  match op with
  | OpCreateTable => createTable (arg 0) (arg 1)
  | OpDropTable => dropTable (arg 0) (arg 1)
  | OpAlterTable => alterTable (arg 0) (arg 1) (arg 2)
  | OpAddColumn => addColumn (arg 0) (arg 1)
  | OpDropColumn => dropColumn (arg 0) (arg 1)
  | OpAddIndex => addIndex (arg 0) (arg 1) (arg 2)
  | OpDropIndex => dropIndex (arg 0) (arg 1) (arg 2)
  | OpDefineTable => defineTable
  | OpDefineConstraints => defineConstraints
  | OpDefineIndexes => defineIndexes
  end.

(** The public data operations of the specification. *)
Inductive DataOperation : Type :=
| OpInsert | OpUpsert | OpUpdate | OpUpdateAll | OpDestroyModels | OpDestroy
| OpSelect | OpAggregate | OpPluck | OpExists | OpTruncate | OpQuery.

Definition dataName (op : DataOperation) : string :=
  match op with
  | OpInsert => "insert"
  | OpUpsert => "upsert"
  | OpUpdate => "update"
  | OpUpdateAll => "updateAll"
  | OpDestroyModels => "destroyModels"
  | OpDestroy => "destroy"
  | OpSelect => "select"
  | OpAggregate => "aggregate"
  | OpPluck => "pluck"
  | OpExists => "exists"
  | OpTruncate => "truncate"
  | OpQuery => "query"
  end.

(** The error a settled promise was rejected with, if it was. *)
Definition rejection {A} (p : Promise A) : option JsError :=
  match p with
  | Fulfilled _ => None
  | Rejected e => Some e
  end.

(** Call a data operation and report how it failed, if it did.  The
    promise-returning methods fail through the promise they return;
    [select] returns a sequence, which fails (if at all) when pulled, so it
    is pulled once. *)
Definition callData (op : DataOperation) (args : list Js.Value)
  : M (option JsError) :=
  let arg i := nth i args Js.Undefined in
  let settled (call : M (Promise Js.Value)) := p <- call ;; ret (rejection p) in
  match op with
  | OpInsert => settled (insert (arg 0) (arg 1) (arg 2))
  | OpUpsert => settled (upsert (arg 0) (arg 1) (arg 2))
  | OpUpdate => settled (update (arg 0) (arg 1) (arg 2))
  | OpUpdateAll => settled (updateAll (arg 0) (arg 1) (arg 2))
  | OpDestroyModels => settled (destroyModels (arg 0) (arg 1) (arg 2))
  | OpDestroy => settled (destroy (arg 0) (arg 1) (arg 2))
  | OpSelect =>
      gen <- select (arg 0) (arg 1) ;;
      pulled <- next gen ;;
      ret (rejection (fst pulled))
  | OpAggregate => settled (aggregate (arg 0) (arg 1) (arg 2))
  | OpPluck => settled (pluck (arg 0) (arg 1) (arg 2))
  | OpExists => settled (exists_ (arg 0) (arg 1))
  | OpTruncate => settled (truncate (arg 0) (arg 1))
  | OpQuery => settled (query (arg 0) (arg 1))
  end.

(** ** Predicates and sample values of the statements *)

(** The label each table, column or index method writes in its message. *)
Definition ddlLabel (op : DDLOperation) : string :=
  match op with
  | OpAlterTable => "renameTable"
  | OpDropIndex => "addIndex"
  | _ => ddlName op
  end.

(** A handle the realm has made and the connection does not hold. *)
Definition abandoned (h : HTTPClient) (s : State) : Prop :=
  In h (created s) /\ httpClient (this s) <> Some h.

Definition isModelClass (v : Js.Value) : bool :=
  match v with
  | Js.ModelClass _ => true
  | _ => false
  end.

(** A model class whose name can be a key of the model map: any name but
    [__proto__].  Assigning that key replaces the prototype of the map by
    the class, after which an assignment of a further key may hit a static
    member of the class (its read-only [name], say, which in strict mode
    throws); what then happens depends on the class and is not modelled. *)
Definition isNamedModel (v : Js.Value) : bool :=
  match v with
  | Js.ModelClass modelName => negb (String.eqb modelName "__proto__")
  | _ => false
  end.

(** A [Models] argument as the methods document and accept it: one model
    class, an array of model classes (possibly with empty slots: [null],
    [undefined]), or an object used as a map from names to models. *)
Definition isModelsArgument (v : Js.Value) : bool :=
  match v with
  | Js.ModelClass _ => isNamedModel v
  | Js.Array items => forallb (fun m => negb (Js.truthy m) || isNamedModel m) items
  | Js.Object _ => true
  | _ => false
  end.

(** A stopped connection, a started one, and some arguments. *)
Definition stoppedConnection : State := freshState (construct Js.Undefined).

Definition startedConnection : State := snd (start stoppedConnection).

Definition User : Js.Value := Js.ModelClass "User".

Definition Role : Js.Value := Js.ModelClass "Role".

Definition bob : Js.Value := Js.Object [("name", Js.Str "Bob")].

(** The options [{ truncate: true }], [{}] and [{ batchSize: 500 }]. *)
Definition truncateOption : Js.Value := Js.Object [("truncate", Js.Bool true)].

Definition noOptions : Js.Value := Js.Object [].



(** ** Further methods, and sequences of calls *)

(** The stub methods that belong to neither family above. *)
Inductive OtherOperation : Type :=
| OpAlterColumn | OpAverage | OpCount | OpMin | OpMax | OpSum.

Definition otherName (op : OtherOperation) : string :=
  match op with
  | OpAlterColumn => "alterColumn"
  | OpAverage => "average"
  | OpCount => "count"
  | OpMin => "min"
  | OpMax => "max"
  | OpSum => "sum"
  end.

Definition callOther (op : OtherOperation) (args : list Js.Value)
  : M (Promise Js.Value) :=
  let arg i := nth i args Js.Undefined in
  match op with
  | OpAlterColumn => alterColumn (arg 0) (arg 1) (arg 2)
  | OpAverage => average (arg 0) (arg 1) (arg 2)
  | OpCount => count (arg 0) (arg 1) (arg 2)
  | OpMin => min (arg 0) (arg 1) (arg 2)
  | OpMax => max (arg 0) (arg 1) (arg 2)
  | OpSum => sum (arg 0) (arg 1) (arg 2)
  end.

(** A program that only starts and stops the connection:
    [await connection.start(); await connection.stop(); ...]. *)
Inductive LifecycleCall : Type := CallStart | CallStop.

Definition lifecycleCall (c : LifecycleCall) : M (Promise Js.Value) :=
  match c with
  | CallStart => start
  | CallStop => stop
  end.

Fixpoint runLifecycle (calls : list LifecycleCall) : M (list (Promise Js.Value)) :=
  match calls with
  | [] => ret []
  | c :: rest =>
      p <- lifecycleCall c ;;
      ps <- runLifecycle rest ;;
      ret (p :: ps)
  end.

Definition isStart (c : LifecycleCall) : bool :=
  match c with
  | CallStart => true
  | CallStop => false
  end.

(** [n] pulls in a row on a generator: the promises, in order, and the
    generator afterwards. *)
Fixpoint pulls (n : nat) (gen : AsyncGenerator)
  : M (list (Promise IteratorResult) * AsyncGenerator) :=
  match n with
  | O => ret ([], gen)
  | S n' =>
      pulled <- next gen ;;
      rest <- pulls n' (snd pulled) ;;
      ret (fst pulled :: fst rest, snd rest)
  end.



(** The state after some more requests were sent. *)
Definition sent (reqs : list Request) (s : State) : State :=
  mkState (this s) (created s) (requests s ++ reqs) (globalUtils s).

(** A per-model method as a subclass may define it: it sends one request
    about the model it is given, and fulfils with [result Model options]. *)
Definition requesting (client : HTTPClient) (path : Js.Value -> string)
  (result : Js.Value -> Js.Value -> Js.Value)
  : Js.Value -> Js.Value -> M (Promise Js.Value) :=
  fun Model options s =>
    (Normal (Fulfilled (result Model options)),
     sent [mkRequest client "POST" (path Model) ""] s).

(** A stopped connection in a realm where [Utils] is bound globally and
    sorts nothing. *)
Definition withUtils : State :=
  mkState (construct Js.Undefined) [] [] (Some (fun _ names => names)).

(** The last call of a lifecycle program, if it has one. *)
Definition lastCall (calls : list LifecycleCall) : option LifecycleCall :=
  last (map Some calls) None.

(** How many of the calls are [start()]. *)
Definition startCount (calls : list LifecycleCall) : nat :=
  List.length (filter isStart calls).


(** * Properties *)

(** ** Sequencing *)

Lemma bind_Normal {A B} (m : M A) (k : A -> M B) (s s' : State) (a : A)
  (r : Completion B * State) :
  m s = (Normal a, s') -> k a s' = r -> bind m k s = r.
Proof. intros Hm Hk. unfold bind. now rewrite Hm. Qed.

Lemma bind_Throw {A B} (m : M A) (k : A -> M B) (s s' : State) (e : JsError) :
  m s = (Throw e, s') -> bind m k s = (Throw e, s').
Proof. intros Hm. unfold bind. now rewrite Hm. Qed.

(** ** Strings and error messages *)

Lemma includes_unfold (needle s : string) :
  includes needle s =
  if String.prefix needle s then true
  else match s with
       | EmptyString => false
       | String _ rest => includes needle rest
       end.
Proof. destruct s; reflexivity. Qed.

Lemma endsWith_unfold (suffix s : string) :
  endsWith suffix s =
  if String.eqb s suffix then true
  else match s with
       | EmptyString => false
       | String _ rest => endsWith suffix rest
       end.
Proof. destruct s; reflexivity. Qed.

Lemma prefix_append (p rest : string) : String.prefix p (p ++ rest) = true.
Proof.
  induction p as [|c p IH]; simpl.
  - destruct rest; reflexivity.
  - destruct (ascii_dec c c) as [_|Hne]; [exact IH | congruence].
Qed.

Lemma includes_append (before needle rest : string) :
  includes needle (before ++ needle ++ rest) = true.
Proof.
  induction before as [|c before IH].
  - simpl. rewrite includes_unfold, prefix_append. reflexivity.
  - rewrite includes_unfold. simpl append.
    destruct (String.prefix needle (String c (before ++ needle ++ rest)));
      [reflexivity | exact IH].
Qed.

Lemma includes_prefix (needle rest : string) :
  includes needle (needle ++ rest) = true.
Proof. rewrite includes_unfold, prefix_append. reflexivity. Qed.

Lemma endsWith_append (before suffix : string) :
  endsWith suffix (before ++ suffix) = true.
Proof.
  induction before as [|c before IH].
  - simpl. rewrite endsWith_unfold, String.eqb_refl. reflexivity.
  - rewrite endsWith_unfold. simpl append.
    destruct (String.eqb (String c (before ++ suffix)) suffix);
      [reflexivity | exact IH].
Qed.

Lemma append_assoc (a b c : string) : (a ++ b) ++ c = a ++ b ++ c.
Proof. induction a as [|x a IH]; simpl; [reflexivity | now rewrite IH]. Qed.

(** Every message built from the driver's template is, in the
    specification's terms, an unsupported-operation error; it names the
    class of the connection and the label written in the template. *)
Lemma notSupported_kind (cls label : string) :
  errorKind (Error (notSupportedMessage cls label)) = UnsupportedOperation.
Proof.
  unfold errorKind, Error. cbn [errClass errMessage].
  unfold notSupportedMessage. rewrite <- !append_assoc.
  rewrite endsWith_append. reflexivity.
Qed.

Lemma notSupported_names_class (cls label : string) :
  includes cls (notSupportedMessage cls label) = true.
Proof. apply includes_prefix. Qed.

Lemma notSupported_names_label (cls label : string) :
  includes label (notSupportedMessage cls label) = true.
Proof.
  unfold notSupportedMessage. rewrite <- append_assoc. apply includes_append.
Qed.

(** ** The stub methods *)

(** A method whose body is the template [throw] returns a rejected promise
    and touches nothing. *)
Lemma async_throwNotSupported (label : string) (s : State) :
  async (throwNotSupported (A := Js.Value) label) s =
  (Normal (Rejected (Error (notSupportedMessage (className (this s)) label))), s).
Proof. reflexivity. Qed.

Lemma callDDL_rejects (op : DDLOperation) (args : list Js.Value) (s : State) :
  callDDL op args s =
  (Normal (Rejected (Error (notSupportedMessage (className (this s)) (ddlLabel op)))), s).
Proof. destruct op; reflexivity. Qed.

(** Eight of the ten operations name themselves. *)
Lemma callDDL_names_operation (op : DDLOperation) (args : list Js.Value) (s : State) :
  op <> OpAlterTable -> op <> OpDropIndex ->
  exists e,
    callDDL op args s = (Normal (Rejected e), s) /\
    errorKind e = UnsupportedOperation /\
    includes (ddlName op) (errMessage e) = true /\
    includes (className (this s)) (errMessage e) = true.
Proof.
  intros Ha Hd. eexists. split; [apply callDDL_rejects|].
  split; [apply notSupported_kind|]. split; [|apply notSupported_names_class].
  replace (ddlName op) with (ddlLabel op) by (destruct op; try reflexivity; congruence).
  apply notSupported_names_label.
Qed.

(** ** Lifecycle *)

Lemma clientId_le_max (h : HTTPClient) (l : list HTTPClient) :
  In h l -> clientId h <= list_max (map clientId l).
Proof.
  intros Hin.
  assert (Hall : Forall (fun k => k <= list_max (map clientId l)) (map clientId l))
    by (apply list_max_le; lia).
  rewrite Forall_forall in Hall. apply Hall. now apply in_map.
Qed.

(** The object made by [new HTTPClient()] was not there before, and is
    recorded as created. *)
Lemma newHTTPClient_fresh (s : State) :
  exists h s',
    newHTTPClient s = (Normal h, s') /\
    ~ In h (created s) /\
    created s' = (created s ++ [h])%list /\
    this s' = this s /\ requests s' = requests s /\ globalUtils s' = globalUtils s.
Proof.
  eexists. eexists. split; [reflexivity|]. simpl.
  repeat split. intros Hin. apply clientId_le_max in Hin. simpl in Hin. lia.
Qed.

Lemma start_spec (s : State) :
  exists h,
    start s = (Normal (Fulfilled Js.Undefined),
               mkState (mkConnection (className (this s)) (queryGenerator (this s)) (Some h))
                       (created s ++ [h]) (requests s) (globalUtils s)) /\
    ~ In h (created s).
Proof.
  destruct (newHTTPClient_fresh s) as (h & s' & Hnew & Hfresh & _).
  exists h. split; [|exact Hfresh].
  unfold newHTTPClient in Hnew. injection Hnew as Hh _. subst h. reflexivity.
Qed.

Lemma stop_spec (s : State) :
  stop s = (Normal (Fulfilled Js.Undefined), setHttpClient None s).
Proof. reflexivity. Qed.

(** C3.  A new connection is stopped: [isStarted()] is false.  From any
    state, [start()] fulfils and leaves the connection holding a transport
    handle, with [isStarted()] true; [stop()] then fulfils and leaves the
    connection holding none, with [isStarted()] false again. *)
Theorem lifecycle_stopped_started_stopped (_options : Js.Value) :
  (forall s, this s = construct _options -> isStarted s = false) /\
  (forall s,
     fst (start s) = Normal (Fulfilled Js.Undefined) /\
     (exists h, httpClient (this (snd (start s))) = Some h /\
                In h (created (snd (start s)))) /\
     isStarted (snd (start s)) = true) /\
  (forall s,
     fst (stop s) = Normal (Fulfilled Js.Undefined) /\
     httpClient (this (snd (stop s))) = None /\
     isStarted (snd (stop s)) = false) /\
  (let s0 := freshState (construct _options) in
   let s1 := snd (start s0) in
   let s2 := snd (stop s1) in
   isStarted s0 = false /\ isStarted s1 = true /\ isStarted s2 = false).
Proof.
  split; [|split; [|split]].
  - intros s Hthis. unfold isStarted. rewrite Hthis. reflexivity.
  - intros s. destruct (start_spec s) as (h & Hs & _). rewrite Hs. simpl.
    split; [reflexivity|]. split; [|reflexivity].
    exists h. split; [reflexivity|]. apply in_or_app. right. now left.
  - intros s. rewrite stop_spec. repeat split.
  - repeat split.
Qed.

Lemma lifecycle_stopped_started_stopped_witness :
  isStarted (freshState (construct Js.Undefined)) = false.
Proof.
  apply (proj1 (lifecycle_stopped_started_stopped Js.Undefined)
           (freshState (construct Js.Undefined))).
  reflexivity.
Defined.

(** C7.  [start()] is not idempotent.  Two calls in a row, with no
    [stop()] between them, both fulfil; each makes a handle of its own, the
    two are distinct, the connection ends up holding the second, and the
    first is abandoned: still among the handles made, held by nobody, and
    nothing was sent through the transport on its behalf. *)
Theorem start_twice_abandons_first_handle (s : State) :
  let s1 := snd (start s) in
  let s2 := snd (start s1) in
  fst (start s) = Normal (Fulfilled Js.Undefined) /\
  fst (start s1) = Normal (Fulfilled Js.Undefined) /\
  exists h1 h2,
    httpClient (this s1) = Some h1 /\
    httpClient (this s2) = Some h2 /\
    h1 <> h2 /\
    ~ In h1 (created s) /\ ~ In h2 (created s1) /\
    In h2 (created s2) /\
    abandoned h1 s2 /\
    requests s2 = requests s.
Proof.
  intros s1 s2. subst s2 s1.
  destruct (start_spec s) as (h1 & Hs1 & Hfresh1). rewrite Hs1.
  cbn [fst snd].
  set (s1 := mkState _ (created s ++ [h1]) _ _).
  destruct (start_spec s1) as (h2 & Hs2 & Hfresh2). rewrite Hs2.
  cbn [fst snd].
  assert (Hin1 : In h1 (created s1))
    by (subst s1; simpl; apply in_or_app; right; now left).
  assert (Hne : h1 <> h2) by (intros ->; contradiction).
  split; [reflexivity|]. split; [reflexivity|].
  exists h1, h2. unfold abandoned. simpl.
  repeat split; try assumption.
  - apply in_or_app. right. now left.
  - apply in_or_app. now left.
  - intros Heq. injection Heq as Heq. congruence.
Qed.

(** ** Table, column and index operations *)

(** C1, at the two operations that break it.  On a new [SOLRConnection],
    [dropIndex] and [alterTable] do fail at once with the not-supported
    error, but the message of [dropIndex] reads [SOLRConnection::addIndex]
    and that of [alterTable] reads [SOLRConnection::renameTable]: neither
    names the operation that was called. *)
Theorem dropIndex_alterTable_name_another_operation
  (_options : Js.Value) (args : list Js.Value) :
  let s := freshState (construct _options) in
  (exists e,
     callDDL OpDropIndex args s = (Normal (Rejected e), s) /\
     errorKind e = UnsupportedOperation /\
     errMessage e =
       "SOLRConnection::addIndex: This operation is not supported for this connection type." /\
     includes (ddlName OpDropIndex) (errMessage e) = false) /\
  (exists e,
     callDDL OpAlterTable args s = (Normal (Rejected e), s) /\
     errorKind e = UnsupportedOperation /\
     errMessage e =
       "SOLRConnection::renameTable: This operation is not supported for this connection type." /\
     includes (ddlName OpAlterTable) (errMessage e) = false).
Proof.
  intros s. split; eexists; (split; [apply callDDL_rejects|]); repeat split.
Qed.

(** ** Data operations *)

Lemma callData_rejects (op : DataOperation) (args : list Js.Value) (s : State) :
  callData op args s =
  (Normal (Some (Error (notSupportedMessage (className (this s)) (dataName op)))), s).
Proof. destruct op; reflexivity. Qed.

(** C2 as stated fails: [insert] on a connection that was never started
    is rejected with the very error it is rejected with once started, the
    plain [Error] [SOLRConnection::insert: This operation is not supported
    for this connection type.], which is an unsupported-operation error
    and no not-started error. *)
Lemma insert_while_stopped_is_not_NotStarted :
  isStarted stoppedConnection = false /\
  callData OpInsert [User; bob] stoppedConnection
    = (Normal (Some (Error
         "SOLRConnection::insert: This operation is not supported for this connection type.")),
       stoppedConnection) /\
  fst (callData OpInsert [User; bob] startedConnection)
    = fst (callData OpInsert [User; bob] stoppedConnection) /\
  ~ (exists e,
       fst (callData OpInsert [User; bob] stoppedConnection) = Normal (Some e) /\
       errorKind e = NotStarted).
Proof.
  split; [reflexivity|]. split; [reflexivity|]. split; [reflexivity|].
  intros (e & He & Hkind). rewrite callData_rejects in He. simpl in He.
  injection He as <-. vm_compute in Hkind. discriminate.
Qed.

(** C2, amended.  Every public data operation fails the same way whether
    the connection is stopped or started: the promise it returns (for
    [select], the promise of the first pull) is rejected with the plain
    [Error] whose message is exactly [<class>::<operation>: This operation
    is not supported for this connection type.], for the class of the
    connection and the name of the operation called; this is an
    unsupported-operation error, and the state is left as it was. *)
Theorem data_operation_is_unsupported_in_every_state
  (op : DataOperation) (args : list Js.Value) (s : State)
  (h : option HTTPClient) :
  let e := Error (className (this s) ++ "::" ++ dataName op
                  ++ ": This operation is not supported for this connection type.") in
  callData op args s = (Normal (Some e), s) /\
  callData op args (setHttpClient h s) = (Normal (Some e), setHttpClient h s) /\
  errorKind e = UnsupportedOperation /\
  errorKind e <> NotStarted.
Proof.
  intros e.
  assert (Hkind : errorKind e = UnsupportedOperation) by apply notSupported_kind.
  split; [apply callData_rejects|]. split; [apply callData_rejects|].
  split; [exact Hkind|]. rewrite Hkind. discriminate.
Qed.

Lemma destroyModels_rejects (Model _models _options : Js.Value) (s : State) :
  destroyModels Model _models _options s =
  (Normal (Rejected (Error (notSupportedMessage (className (this s)) "destroyModels"))), s).
Proof. reflexivity. Qed.

(** C4, where the code breaks it.  On a started connection
    [destroyModels(User, null, {})] is no silent no-op, and
    [destroyModels(User, null, { truncate: true })] truncates nothing:
    the promise of either call is rejected with the not-supported error of
    [destroyModels], and no request is sent in either case.  The same
    holds with [undefined] for the records. *)
Theorem destroyModels_of_null_is_rejected :
  let rejected :=
    (Normal (Rejected (Error
       "SOLRConnection::destroyModels: This operation is not supported for this connection type.")),
     startedConnection) in
  isStarted startedConnection = true /\
  requests startedConnection = [] /\
  destroyModels User Js.Null noOptions startedConnection = rejected /\
  destroyModels User Js.Null truncateOption startedConnection = rejected /\
  destroyModels User Js.Undefined noOptions startedConnection = rejected /\
  destroyModels User Js.Undefined truncateOption startedConnection = rejected.
Proof. repeat split. Qed.



(** ** [transaction] *)

(** [transaction] rejects whatever the callback is, and never runs it. *)
Lemma transaction_rejects (callback : Callback) (options : Js.Value) (s : State) :
  transaction callback options s =
  (Normal (Rejected (Error (notSupportedMessage (className (this s)) "transaction"))), s).
Proof. reflexivity. Qed.

(** C6.  [transaction(callback, options)] either rejects with the
    unsupported-operation error, or returns what the callback returned;
    here it is always the first, with the state untouched, so nothing is
    run under a pretence of atomicity. *)
Theorem transaction_rejects_or_returns_callback_value
  (callback : Callback) (options : Js.Value) (s : State) :
  (exists e,
     transaction callback options s = (Normal (Rejected e), s) /\
     errorKind e = UnsupportedOperation /\
     includes "transaction" (errMessage e) = true) \/
  (exists v s',
     callback (this s) s = (Normal v, s') /\
     transaction callback options s = (Normal (Fulfilled v), s')).
Proof.
  left. eexists. split; [apply transaction_rejects|].
  split; [apply notSupported_kind | apply notSupported_names_label].
Qed.

(** ** [createTables] and [dropTables] *)

Lemma isModelsArgument_truthy (v : Js.Value) :
  isModelsArgument v = true -> Js.truthy v = true.
Proof. destruct v; simpl; congruence. Qed.

(** Over model classes the first loop runs to its end and changes nothing
    but the map. *)
Lemma collectModels_classes (Models : list Js.Value) :
  forallb isModelClass Models = true ->
  forall modelMap s, exists props, collectModels Models modelMap s = (Normal props, s).
Proof.
  induction Models as [|Model rest IH]; intros Hall modelMap s.
  - exists modelMap. reflexivity.
  - simpl in Hall. apply andb_true_iff in Hall as [Hm Hrest].
    destruct Model; try discriminate Hm.
    destruct (IH Hrest (Js.setProp modelName (Js.ModelClass modelName) modelMap) s)
      as (props & Hprops).
    exists props. simpl. unfold bind. simpl. exact Hprops.
Qed.

Lemma filter_truthy_classes (items : list Js.Value) :
  forallb (fun m => negb (Js.truthy m) || isModelClass m) items = true ->
  forallb isModelClass (filter Js.truthy items) = true.
Proof.
  induction items as [|m items IH]; intros Hall; [reflexivity|].
  simpl in Hall. apply andb_true_iff in Hall as [Hm Hrest].
  simpl. destruct (Js.truthy m) eqn:Ht; simpl in *.
  - rewrite Hm. now apply IH.
  - now apply IH.
Qed.

Lemma namedModels_classes (items : list Js.Value) :
  forallb (fun m => negb (Js.truthy m) || isNamedModel m) items = true ->
  forallb (fun m => negb (Js.truthy m) || isModelClass m) items = true.
Proof.
  induction items as [|m items IH]; intros Hall; [reflexivity|].
  simpl in Hall. apply andb_true_iff in Hall as [Hm Hrest].
  simpl. rewrite (IH Hrest), andb_true_r.
  destruct m; try exact Hm. apply orb_true_r.
Qed.

(** The model map of a [Models] argument: built by the first loop, or the
    argument itself. *)
Lemma modelMap_of_Models (_Models : Js.Value) (s : State) :
  isModelsArgument _Models = true ->
  exists modelMap,
    (if isArrayOrFunction _Models
     then props <- collectModels (filter Js.truthy (toArray _Models)) [] ;;
          ret (Js.Object props)
     else ret _Models) s = (Normal modelMap, s).
Proof.
  intros Hwf. destruct _Models; try discriminate Hwf; cbn [isArrayOrFunction].
  - (* an array *)
    simpl in Hwf. apply namedModels_classes, filter_truthy_classes in Hwf.
    destruct (collectModels_classes _ Hwf [] s) as (props & Hprops).
    exists (Js.Object props). now apply bind_Normal with (a := props) (s' := s).
  - (* a map *)
    eexists. reflexivity.
  - (* one model class *)
    eexists. reflexivity.
Qed.

(** Without a global [Utils], the common part of the two methods stops at
    the reference to [Utils], for every [Models] argument. *)
Lemma sortedModels_without_Utils (_Models : Js.Value) (s : State) :
  isModelsArgument _Models = true ->
  globalUtils s = None ->
  sortedModels _Models s = (Throw (ReferenceError "Utils is not defined"), s).
Proof.
  intros Hwf Hutils.
  destruct (modelMap_of_Models _Models s Hwf) as (modelMap & HmodelMap).
  unfold sortedModels.
  apply bind_Normal with (a := modelMap) (s' := s); [exact HmodelMap|].
  apply bind_Throw. unfold sortModelNamesByCreationOrder. now rewrite Hutils.
Qed.

(** C9, amended.  With [null] or [undefined] for [Models],
    [createTables] and [dropTables] return [undefined] at once: no error,
    no per-model call (whatever [createTable] / [dropTable] the connection
    has, the state is unchanged).  With a [Models] argument that is a
    model class, an array whose truthy entries are model classes (none of
    them named [__proto__]), or an object used as a map, and [Utils] bound
    nowhere, both are rejected with a [ReferenceError] for [Utils], again
    before any per-model call. *)
Theorem createTables_dropTables_stop_at_Utils
  (createTable dropTable : Js.Value -> Js.Value -> M (Promise Js.Value))
  (options : Js.Value) (s : State) :
  (forall _Models,
     _Models = Js.Null \/ _Models = Js.Undefined ->
     createTablesVia createTable _Models options s
       = (Normal (Fulfilled Js.Undefined), s) /\
     dropTablesVia dropTable _Models options s
       = (Normal (Fulfilled Js.Undefined), s)) /\
  (forall _Models,
     isModelsArgument _Models = true ->
     globalUtils s = None ->
     createTablesVia createTable _Models options s
       = (Normal (Rejected (ReferenceError "Utils is not defined")), s) /\
     dropTablesVia dropTable _Models options s
       = (Normal (Rejected (ReferenceError "Utils is not defined")), s)).
Proof.
  split.
  - intros _Models [-> | ->]; split; reflexivity.
  - intros _Models Hwf Hutils.
    pose proof (sortedModels_without_Utils _Models s Hwf Hutils) as Hsorted.
    apply isModelsArgument_truthy in Hwf.
    unfold createTablesVia, dropTablesVia, async. rewrite Hwf. cbn [negb].
    unfold bind. rewrite Hsorted. split; reflexivity.
Qed.

Lemma createTables_dropTables_stop_at_Utils_witness :
  createTables Js.Null noOptions stoppedConnection
    = (Normal (Fulfilled Js.Undefined), stoppedConnection) /\
  createTables (Js.Array [User; Role]) noOptions stoppedConnection
    = (Normal (Rejected (ReferenceError "Utils is not defined")), stoppedConnection) /\
  dropTables (Js.Array [User; Role]) noOptions stoppedConnection
    = (Normal (Rejected (ReferenceError "Utils is not defined")), stoppedConnection).
Proof.
  destruct (createTables_dropTables_stop_at_Utils createTable dropTable
              noOptions stoppedConnection) as [Hnull Hmodels].
  split.
  - apply (Hnull Js.Null). left. reflexivity.
  - apply (Hmodels (Js.Array [User; Role])); reflexivity.
Defined.

(** With a global [Utils] the second loop is reached, and its first
    per-model call fails the whole method: the [ReferenceError] above does
    come before any such call. *)
Example createTables_with_a_global_Utils :
  let s := mkState (construct Js.Undefined) [] [] (Some (fun _ names => names)) in
  fst (createTables (Js.Array [User; Js.Null; Role]) noOptions s)
    = Normal (Rejected (Error
        "SOLRConnection::createTable: This operation is not supported for this connection type.")) /\
  fst (dropTables (Js.Array [User; Js.Null; Role]) noOptions s)
    = Normal (Rejected (Error
        "SOLRConnection::dropTable: This operation is not supported for this connection type.")) /\
  fst (createTables (Js.Array []) noOptions s) = Normal (Fulfilled (Js.Array [])).
Proof. repeat split. Qed.

(** C9 as stated fails: [[1]] is a non-empty [Models] argument, and with
    [Utils] bound nowhere [createTables([1])] and [dropTables([1])] are
    rejected with a [TypeError], raised by [getModelName] in the first
    loop; the reference to [Utils] is not reached. *)
Lemma createTables_of_a_number_is_a_TypeError :
  Js.truthy (Js.Array [Js.Number 1]) = true /\
  globalUtils stoppedConnection = None /\
  createTables (Js.Array [Js.Number 1]) noOptions stoppedConnection
    = (Normal (Rejected (TypeError "Model.getModelName is not a function")),
       stoppedConnection) /\
  dropTables (Js.Array [Js.Number 1]) noOptions stoppedConnection
    = (Normal (Rejected (TypeError "Model.getModelName is not a function")),
       stoppedConnection) /\
  fst (createTables (Js.Array [Js.Number 1]) noOptions stoppedConnection)
    <> Normal (Rejected (ReferenceError "Utils is not defined")) /\
  fst (dropTables (Js.Array [Js.Number 1]) noOptions stoppedConnection)
    <> Normal (Rejected (ReferenceError "Utils is not defined")).
Proof. repeat split; discriminate. Qed.

(** ** [select] *)

(** C10.  Calling [select(query, options)] does not throw and changes
    nothing: it returns a sequence that has not begun.  The error comes
    with the first pull, as the rejection of that pull's promise, and ends
    the sequence: a second pull reports [done].  No pull sends anything
    through the transport. *)
Theorem select_fails_on_first_pull_only
  (_queryEngine _options : Js.Value) (s : State) :
  exists gen gen',
    select _queryEngine _options s = (Normal gen, s) /\
    genState gen = SuspendedStart /\
    next gen s =
      (Normal (Rejected (Error (notSupportedMessage (className (this s)) "select")),
               gen'), s) /\
    genState gen' = Completed /\
    next gen' s =
      (Normal (Fulfilled (mkIteratorResult Js.Undefined true), gen'), s).
Proof. do 2 eexists. repeat split. Qed.

(** * Further properties of the driver *)

(** ** Programs of [start()] and [stop()] *)

Lemma lastCall_cons (c : LifecycleCall) (rest : list LifecycleCall) :
  lastCall (c :: rest) = match rest with [] => Some c | _ => lastCall rest end.
Proof. destruct rest; reflexivity. Qed.

Lemma lastCall_start_counts (calls : list LifecycleCall) :
  lastCall calls = Some CallStart -> startCount calls <> 0.
Proof.
  unfold startCount.
  induction calls as [|c rest IH]; [discriminate|].
  rewrite lastCall_cons. destruct rest as [|c' rest'].
  - intros [= ->]. discriminate.
  - intros Hlast. specialize (IH Hlast). destruct c; simpl in *; lia.
Qed.

Lemma lastCall_nonempty (c : LifecycleCall) (rest : list LifecycleCall) :
  lastCall (c :: rest) <> None.
Proof.
  revert c. induction rest as [|c' rest IH]; intros c; [discriminate|].
  rewrite lastCall_cons. apply IH.
Qed.

(** What a lifecycle program does, in full: every call fulfils; the
    handles made are as many as the calls of [start()], new and pairwise
    distinct; nothing else of the state changes; the connection holds the
    newest handle after a final [start()], none after a final [stop()]. *)
Lemma runLifecycle_spec (calls : list LifecycleCall) :
  forall s, exists hs s',
    runLifecycle calls s
      = (Normal (map (fun _ => Fulfilled Js.Undefined) calls), s') /\
    created s' = (created s ++ hs)%list /\
    List.length hs = startCount calls /\
    NoDup hs /\
    (forall h, In h hs -> ~ In h (created s)) /\
    requests s' = requests s /\
    globalUtils s' = globalUtils s /\
    className (this s') = className (this s) /\
    queryGenerator (this s') = queryGenerator (this s) /\
    httpClient (this s') =
      match lastCall calls with
      | None => httpClient (this s)
      | Some CallStart => Some (last hs (mkClient 0))
      | Some CallStop => None
      end.
Proof.
  induction calls as [|c rest IH]; intros s.
  - exists [], s. rewrite app_nil_r.
    repeat split; solve [constructor | intros h []].
  - destruct c.
    + destruct (start_spec s) as (h & Hstart & Hfresh).
      set (s1 := mkState _ (created s ++ [h]) _ _) in Hstart.
      destruct (IH s1)
        as (hs & s' & Hrun & Hcreated & Hlen & Hnodup & Hnew & Hreq & Hutils
            & Hcls & Hgen & Hheld).
      assert (Hh : ~ In h hs).
      { intros Hin. apply (Hnew h Hin). subst s1. simpl.
        apply in_or_app. right. now left. }
      exists (h :: hs), s'. split; [|split; [|split; [|split; [|split]]]].
      * simpl. eapply bind_Normal; [exact Hstart|].
        eapply bind_Normal; [exact Hrun | reflexivity].
      * rewrite Hcreated. subst s1. simpl. now rewrite <- app_assoc.
      * unfold startCount in *. simpl. now rewrite Hlen.
      * now constructor.
      * intros h' [<- | Hin]; [exact Hfresh|].
        intros Hold. apply (Hnew h' Hin). subst s1. simpl.
        apply in_or_app. now left.
      * rewrite Hreq, Hutils, Hcls, Hgen. subst s1. simpl.
        repeat split. rewrite Hheld, lastCall_cons.
        destruct rest as [|c' rest'].
        -- simpl. unfold startCount in Hlen. simpl in Hlen.
           destruct hs; [reflexivity | discriminate].
        -- pose proof (lastCall_nonempty c' rest') as Hsome.
           destruct (lastCall (c' :: rest')) as [[|]|] eqn:Hlast;
             [|reflexivity|now elim Hsome].
           apply lastCall_start_counts in Hlast. rewrite <- Hlen in Hlast.
           destruct hs; [now elim Hlast | reflexivity].
    + destruct (IH (setHttpClient None s))
        as (hs & s' & Hrun & Hcreated & Hlen & Hnodup & Hnew & Hreq & Hutils
            & Hcls & Hgen & Hheld).
      exists hs, s'. split; [|split; [|split; [|split; [|split]]]];
        try assumption.
      * simpl. eapply bind_Normal; [apply stop_spec|].
        eapply bind_Normal; [exact Hrun | reflexivity].
      * rewrite Hreq, Hutils, Hcls, Hgen. simpl. repeat split.
        rewrite Hheld, lastCall_cons. destruct rest as [|c' rest']; [reflexivity|].
        pose proof (lastCall_nonempty c' rest') as Hsome.
        destruct (lastCall (c' :: rest')) as [[|]|];
          [reflexivity|reflexivity|now elim Hsome].
Qed.

(** X1.  Whatever sequence of [start()] and [stop()] calls a program makes,
    every call fulfils with [undefined], and afterwards [isStarted()] tells
    what the last call was: true after [start()], false after [stop()],
    unchanged if there was no call.  No request is sent, and the class
    name, the query generator and the global [Utils] stay as they were. *)
Theorem lifecycle_program_tracks_last_call
  (calls : list LifecycleCall) (s : State) :
  exists s',
    runLifecycle calls s
      = (Normal (map (fun _ => Fulfilled Js.Undefined) calls), s') /\
    isStarted s' =
      match lastCall calls with
      | None => isStarted s
      | Some c => isStart c
      end /\
    requests s' = requests s /\
    globalUtils s' = globalUtils s /\
    className (this s') = className (this s) /\
    queryGenerator (this s') = queryGenerator (this s).
Proof.
  destruct (runLifecycle_spec calls s)
    as (hs & s' & Hrun & _ & _ & _ & _ & Hreq & Hutils & Hcls & Hgen & Hheld).
  exists s'. repeat split; try assumption.
  unfold isStarted. rewrite Hheld.
  destruct (lastCall calls) as [[|]|]; reflexivity.
Qed.

(** X2.  A handle is never reused.  Over any sequence of [start()] and
    [stop()] calls the realm gains exactly one handle per [start()], each
    of them new and all of them distinct; no handle is ever removed.  After
    a final [start()] the connection holds the newest one. *)
Theorem lifecycle_program_makes_one_new_handle_per_start
  (calls : list LifecycleCall) (s : State) :
  exists hs,
    let s' := snd (runLifecycle calls s) in
    created s' = (created s ++ hs)%list /\
    List.length hs = startCount calls /\
    NoDup hs /\
    Forall (fun h => ~ In h (created s)) hs /\
    httpClient (this s') =
      match lastCall calls with
      | None => httpClient (this s)
      | Some CallStart => Some (last hs (mkClient 0))
      | Some CallStop => None
      end.
Proof.
  destruct (runLifecycle_spec calls s)
    as (hs & s' & Hrun & Hcreated & Hlen & Hnodup & Hnew & _ & _ & _ & _ & Hheld).
  exists hs. rewrite Hrun. cbn [snd].
  repeat split; try assumption. now apply Forall_forall.
Qed.

Lemma startCount_repeat_start (n : nat) : startCount (repeat CallStart n) = n.
Proof.
  unfold startCount. induction n as [|n IH]; [reflexivity|].
  simpl. now rewrite IH.
Qed.

Lemma lastCall_repeat_start (n : nat) :
  lastCall (repeat CallStart (S n)) = Some CallStart.
Proof.
  induction n as [|n IH]; [reflexivity|].
  change (repeat CallStart (S (S n))) with (CallStart :: repeat CallStart (S n)).
  rewrite lastCall_cons. exact IH.
Qed.

(** X3.  Each [start()] on a started connection leaks one handle.  After
    [n + 1] calls of [start()] in a row the connection holds the handle
    made last, and the [n] handles made before it are all abandoned:
    still in the realm, held by nobody. *)
Theorem repeated_start_abandons_all_but_last (n : nat) (s : State) :
  exists hs h s',
    runLifecycle (repeat CallStart (S n)) s
      = (Normal (repeat (Fulfilled Js.Undefined) (S n)), s') /\
    created s' = (created s ++ hs ++ [h])%list /\
    List.length hs = n /\
    httpClient (this s') = Some h /\
    Forall (fun h' => abandoned h' s') hs.
Proof.
  destruct (runLifecycle_spec (repeat CallStart (S n)) s)
    as (hs & s' & Hrun & Hcreated & Hlen & Hnodup & _ & _ & _ & _ & _ & Hheld).
  rewrite startCount_repeat_start in Hlen.
  rewrite lastCall_repeat_start in Hheld.
  assert (Hne : hs <> []) by (intros ->; discriminate).
  pose proof (app_removelast_last (mkClient 0) Hne) as Hsplit.
  set (h := last hs (mkClient 0)) in *. set (front := removelast hs) in *.
  exists front, h, s'. split; [|split; [|split; [|split]]].
  - rewrite Hrun. f_equal. f_equal.
    clear. induction (S n) as [|m IH]; [reflexivity|]. simpl. now rewrite IH.
  - now rewrite Hcreated, Hsplit.
  - assert (Hl : List.length hs = List.length front + 1)
      by (rewrite Hsplit at 1; rewrite length_app; reflexivity).
    lia.
  - exact Hheld.
  - apply Forall_forall. intros h' Hin. split.
    + rewrite Hcreated, Hsplit. apply in_or_app. right.
      apply in_or_app. now left.
    + rewrite Hheld. intros [= ->].
      rewrite Hsplit in Hnodup. apply NoDup_remove_2 in Hnodup.
      apply Hnodup. rewrite app_nil_r. exact Hin.
Qed.

(** X4.  [stop()] on a connection that is not started is no error and
    changes nothing; so [stop()] is idempotent: a second [stop()] leaves
    the state of the first. *)
Theorem stop_when_stopped_changes_nothing (s : State) :
  isStarted s = false ->
  stop s = (Normal (Fulfilled Js.Undefined), s) /\
  (forall s0,
     stop (snd (stop s0)) = (Normal (Fulfilled Js.Undefined), snd (stop s0))).
Proof.
  intros Hstopped. split.
  - rewrite stop_spec. f_equal. unfold isStarted in Hstopped.
    destruct s as [[cls gen [h|]] made sent utils]; [discriminate | reflexivity].
  - intros s0. rewrite !stop_spec. reflexivity.
Qed.

Lemma stop_when_stopped_changes_nothing_witness :
  stop stoppedConnection = (Normal (Fulfilled Js.Undefined), stoppedConnection).
Proof.
  apply (stop_when_stopped_changes_nothing stoppedConnection). reflexivity.
Defined.

(** ** [createTables] and [dropTables]: the [Models] argument *)


(** X5.  Every falsy [Models] argument ([null], [undefined], [false], [0],
    the empty string) makes [createTables] and [dropTables] return
    [undefined] at once, whatever the per-model methods, the options and
    the state; nothing is called and nothing changes. *)
Theorem createTables_dropTables_of_falsy_Models
  (createTable dropTable : Js.Value -> Js.Value -> M (Promise Js.Value))
  (_Models options : Js.Value) (s : State) :
  Js.truthy _Models = false ->
  createTablesVia createTable _Models options s
    = (Normal (Fulfilled Js.Undefined), s) /\
  dropTablesVia dropTable _Models options s
    = (Normal (Fulfilled Js.Undefined), s).
Proof.
  intros Hfalsy. unfold createTablesVia, dropTablesVia, async.
  rewrite Hfalsy. now split.
Qed.

Lemma createTables_dropTables_of_falsy_Models_witness :
  createTables (Js.Number 0) noOptions withUtils
    = (Normal (Fulfilled Js.Undefined), withUtils) /\
  dropTables (Js.Str "") noOptions withUtils
    = (Normal (Fulfilled Js.Undefined), withUtils).
Proof.
  split.
  - apply (createTables_dropTables_of_falsy_Models createTable dropTable
             (Js.Number 0) noOptions withUtils). reflexivity.
  - apply (createTables_dropTables_of_falsy_Models createTable dropTable
             (Js.Str "") noOptions withUtils). reflexivity.
Defined.

Lemma filter_truthy_twice (items : list Js.Value) :
  filter Js.truthy (filter Js.truthy items) = filter Js.truthy items.
Proof.
  induction items as [|m items IH]; [reflexivity|].
  simpl. destruct (Js.truthy m) eqn:Hm; [|exact IH].
  simpl. now rewrite Hm, IH.
Qed.

Lemma sortedModels_skips_falsy (items : list Js.Value) :
  sortedModels (Js.Array items) = sortedModels (Js.Array (filter Js.truthy items)).
Proof.
  unfold sortedModels. cbn [isArrayOrFunction toArray].
  now rewrite filter_truthy_twice.
Qed.

(** X6.  The [Models] argument is normalised before use: a single model
    class is treated as the array holding just that class, and falsy
    entries of an array ([null], [undefined], ...) are skipped, so an array
    behaves as the array of its truthy entries. *)
Theorem createTables_dropTables_normalise_Models
  (method : Js.Value -> Js.Value -> M (Promise Js.Value))
  (options : Js.Value) (s : State) :
  (forall modelName,
     createTablesVia method (Js.ModelClass modelName) options s
       = createTablesVia method (Js.Array [Js.ModelClass modelName]) options s /\
     dropTablesVia method (Js.ModelClass modelName) options s
       = dropTablesVia method (Js.Array [Js.ModelClass modelName]) options s) /\
  (forall items,
     createTablesVia method (Js.Array items) options s
       = createTablesVia method (Js.Array (filter Js.truthy items)) options s /\
     dropTablesVia method (Js.Array items) options s
       = dropTablesVia method (Js.Array (filter Js.truthy items)) options s).
Proof.
  split.
  - intros modelName. split; reflexivity.
  - intros items. unfold createTablesVia, dropTablesVia. cbn [Js.truthy negb].
    rewrite (sortedModels_skips_falsy items). split; reflexivity.
Qed.






(** ** Plain objects: own keys and their order *)
















(** ** [createTables] and [dropTables]: the model map *)







Lemma sortedModels_with_Utils (_Models : Js.Value)
  (sort : SOLRConnection -> list string -> list string) (s : State) :
  isModelsArgument _Models = true ->
  globalUtils s = Some sort ->
  exists modelMap,
    sortedModels _Models s
    = (Normal (modelMap, sort (this s) (Js.keys modelMap)), s).
Proof.
  intros Hwf Hutils.
  destruct (modelMap_of_Models _Models s Hwf) as (modelMap & HmodelMap).
  exists modelMap. unfold sortedModels.
  eapply bind_Normal; [exact HmodelMap|].
  eapply bind_Normal; [|reflexivity].
  unfold sortModelNamesByCreationOrder. now rewrite Hutils.
Qed.

Lemma async_bind_Normal {A B} (m : M A) (k : A -> M B) (s s' : State) (a : A) :
  m s = (Normal a, s') -> async (bind m k) s = async (k a) s'.
Proof. intros Hm. unfold async, bind. now rewrite Hm. Qed.

Lemma createTablesVia_sortedModels_Normal
  (method : Js.Value -> Js.Value -> M (Promise Js.Value))
  (_Models options modelMap : Js.Value) (sorted : list string) (s s' : State) :
  Js.truthy _Models = true ->
  sortedModels _Models s = (Normal (modelMap, sorted), s') ->
  createTablesVia method _Models options s
    = async (results <- forEachModel method modelMap options sorted [] ;;
             ret (Js.Array results)) s' /\
  dropTablesVia method _Models options s
    = async (results <- forEachModel method modelMap options (rev sorted) [] ;;
             ret (Js.Array results)) s'.
Proof.
  intros Htruthy Hsorted. unfold createTablesVia, dropTablesVia.
  rewrite Htruthy. cbn [negb].
  split; erewrite async_bind_Normal by exact Hsorted; reflexivity.
Qed.

(** X9.  With [Utils] bound, the driver's own [createTable] and
    [dropTable], and a [Models] argument as documented (no model named
    [__proto__]), the two methods succeed only when there is nothing to do:
    if the sorted list of names is empty they fulfil with an empty array;
    otherwise the first per-model call fails them with that method's
    not-supported error.  The state is unchanged either way. *)
Theorem createTables_dropTables_with_Utils
  (_Models options : Js.Value)
  (sort : SOLRConnection -> list string -> list string) (s : State) :
  isModelsArgument _Models = true ->
  globalUtils s = Some sort ->
  exists modelMap,
    sortedModels _Models s
      = (Normal (modelMap, sort (this s) (Js.keys modelMap)), s) /\
    createTables _Models options s
      = (Normal (match sort (this s) (Js.keys modelMap) with
                 | [] => Fulfilled (Js.Array [])
                 | _ :: _ =>
                     Rejected (Error (notSupportedMessage (className (this s))
                                        "createTable"))
                 end), s) /\
    dropTables _Models options s
      = (Normal (match sort (this s) (Js.keys modelMap) with
                 | [] => Fulfilled (Js.Array [])
                 | _ :: _ =>
                     Rejected (Error (notSupportedMessage (className (this s))
                                        "dropTable"))
                 end), s).
Proof.
  intros Hwf Hutils.
  destruct (sortedModels_with_Utils _Models sort s Hwf Hutils)
    as (modelMap & Hsorted).
  exists modelMap. split; [exact Hsorted|].
  apply isModelsArgument_truthy in Hwf.
  destruct (createTablesVia_sortedModels_Normal createTable _Models options
              modelMap _ s s Hwf Hsorted) as [Hcreate _].
  destruct (createTablesVia_sortedModels_Normal dropTable _Models options
              modelMap _ s s Hwf Hsorted) as [_ Hdrop].
  unfold createTables, dropTables. rewrite Hcreate, Hdrop.
  destruct (sort (this s) (Js.keys modelMap)) as [|n rest] eqn:Hnames.
  - split; reflexivity.
  - split; [reflexivity|].
    destruct (rev (n :: rest)) as [|n' rest'] eqn:Hrev; [|reflexivity].
    apply (f_equal (@List.length string)) in Hrev.
    rewrite length_rev in Hrev. discriminate Hrev.
Qed.

Lemma createTables_dropTables_with_Utils_witness :
  createTables (Js.Array [User; Role]) noOptions withUtils
    = (Normal (Rejected (Error
         "SOLRConnection::createTable: This operation is not supported for this connection type.")),
       withUtils) /\
  dropTables (Js.Array [Js.Null]) noOptions withUtils
    = (Normal (Fulfilled (Js.Array [])), withUtils).
Proof.
  split.
  - destruct (createTables_dropTables_with_Utils (Js.Array [User; Role])
                noOptions (fun _ names => names) withUtils eq_refl eq_refl)
      as (modelMap & Hsorted & Hcreate & _).
    assert (Hrun : sortedModels (Js.Array [User; Role]) withUtils
                   = (Normal (Js.Object [("User", User); ("Role", Role)],
                              ["User"; "Role"]), withUtils))
      by reflexivity.
    rewrite Hrun in Hsorted. injection Hsorted as Hmap _. subst modelMap.
    exact Hcreate.
  - destruct (createTables_dropTables_with_Utils
                (Js.Array [Js.Null])
                noOptions (fun _ names => names) withUtils eq_refl eq_refl)
      as (modelMap & Hsorted & _ & Hdrop).
    assert (Hrun : sortedModels (Js.Array [Js.Null]) withUtils
                   = (Normal (Js.Object [], []), withUtils))
      by reflexivity.
    rewrite Hrun in Hsorted. injection Hsorted as Hmap _. subst modelMap.
    exact Hdrop.
Defined.

Lemma sent_nothing (s : State) : sent [] s = s.
Proof. destruct s. unfold sent. simpl. now rewrite app_nil_r. Qed.

Lemma sent_sent (reqs reqs' : list Request) (s : State) :
  sent reqs' (sent reqs s) = sent (reqs ++ reqs') s.
Proof. unfold sent. simpl. now rewrite app_assoc. Qed.

(** The second loop over a requesting method: one call per name, from the
    first name to the last, each sending its request before the next. *)
Lemma forEachModel_requesting (client : HTTPClient) (path : Js.Value -> string)
  (result : Js.Value -> Js.Value -> Js.Value)
  (modelMap options : Js.Value) (names : list string) :
  forall results s,
    forEachModel (requesting client path result) modelMap options names results s
    = (Normal (results ++
               map (fun n => result (Js.getProp n modelMap) options) names)%list,
       sent (map (fun n => mkRequest client "POST"
                             (path (Js.getProp n modelMap)) "") names) s).
Proof.
  induction names as [|n rest IH]; intros results s.
  - simpl. now rewrite app_nil_r, sent_nothing.
  - simpl. unfold bind at 1. unfold await, bind at 1. unfold requesting at 1.
    unfold ret at 1. rewrite IH, sent_sent. now rewrite <- app_assoc.
Qed.

(** X10.  When the per-model method of the connection sends a request and
    fulfils (as an override in a subclass may), [Utils] returns names
    among those it was given, and the [Models] argument is as documented
    (no model named [__proto__]), [createTables] calls the method exactly once
    per sorted name, in the order [Utils] gave, each time with the model
    the map holds under that name: the requests go out in that order and
    the promise fulfils with the results in that order.  [dropTables] goes
    through the same names from the last to the first: its requests and
    its results are those of [createTables] reversed. *)
Theorem createTables_dropTables_visit_in_opposite_orders
  (client : HTTPClient) (path : Js.Value -> string)
  (result : Js.Value -> Js.Value -> Js.Value)
  (_Models options : Js.Value)
  (sort : SOLRConnection -> list string -> list string) (s : State) :
  isModelsArgument _Models = true ->
  globalUtils s = Some sort ->
  (forall names, incl (sort (this s) names) names) ->
  exists modelMap,
    let sorted := sort (this s) (Js.keys modelMap) in
    let results := map (fun n => result (Js.getProp n modelMap) options) sorted in
    let reqs :=
      map (fun n => mkRequest client "POST" (path (Js.getProp n modelMap)) "")
          sorted in
    sortedModels _Models s = (Normal (modelMap, sorted), s) /\
    incl sorted (Js.keys modelMap) /\
    createTablesVia (requesting client path result) _Models options s
      = (Normal (Fulfilled (Js.Array results)), sent reqs s) /\
    dropTablesVia (requesting client path result) _Models options s
      = (Normal (Fulfilled (Js.Array (rev results))), sent (rev reqs) s).
Proof.
  intros Hwf Hutils Hincl.
  destruct (sortedModels_with_Utils _Models sort s Hwf Hutils)
    as (modelMap & Hsorted).
  exists modelMap. split; [exact Hsorted|]. split; [apply Hincl|].
  apply isModelsArgument_truthy in Hwf.
  destruct (createTablesVia_sortedModels_Normal (requesting client path result)
              _Models options modelMap _ s s Hwf Hsorted) as [Hcreate Hdrop].
  rewrite Hcreate, Hdrop. unfold async, bind.
  rewrite !forEachModel_requesting. simpl. rewrite !map_rev.
  split; reflexivity.
Qed.

Lemma createTables_dropTables_visit_in_opposite_orders_witness :
  createTablesVia (requesting (mkClient 0) (fun Model => "create") (fun Model _ => Model))
      (Js.Array [User; Role]) noOptions withUtils
    = (Normal (Fulfilled (Js.Array [User; Role])),
       sent [mkRequest (mkClient 0) "POST" "create" "";
             mkRequest (mkClient 0) "POST" "create" ""] withUtils) /\
  dropTablesVia (requesting (mkClient 0) (fun Model => "drop") (fun Model _ => Model))
      (Js.Array [User; Role]) noOptions withUtils
    = (Normal (Fulfilled (Js.Array [Role; User])),
       sent [mkRequest (mkClient 0) "POST" "drop" "";
             mkRequest (mkClient 0) "POST" "drop" ""] withUtils).
Proof.
  split.
  - destruct (createTables_dropTables_visit_in_opposite_orders
                (mkClient 0) (fun Model => "create") (fun Model _ => Model)
                (Js.Array [User; Role]) noOptions
                (fun _ names => names) withUtils eq_refl eq_refl
                (fun names => incl_refl names))
      as (modelMap & Hsorted & _ & Hcreate & _).
    assert (Hrun : sortedModels (Js.Array [User; Role]) withUtils
                   = (Normal (Js.Object [("User", User); ("Role", Role)],
                              ["User"; "Role"]), withUtils))
      by reflexivity.
    rewrite Hrun in Hsorted. injection Hsorted as Hmap _. subst modelMap.
    exact Hcreate.
  - destruct (createTables_dropTables_visit_in_opposite_orders
                (mkClient 0) (fun Model => "drop") (fun Model _ => Model)
                (Js.Array [User; Role]) noOptions
                (fun _ names => names) withUtils eq_refl eq_refl
                (fun names => incl_refl names))
      as (modelMap & Hsorted & _ & _ & Hdrop).
    assert (Hrun : sortedModels (Js.Array [User; Role]) withUtils
                   = (Normal (Js.Object [("User", User); ("Role", Role)],
                              ["User"; "Role"]), withUtils))
      by reflexivity.
    rewrite Hrun in Hsorted. injection Hsorted as Hmap _. subst modelMap.
    exact Hdrop.
Defined.

(** ** What the error messages tell *)

Lemma append_cancel_l (a b c : string) : a ++ b = a ++ c -> b = c.
Proof.
  induction a as [|x a IH]; simpl; intros H; [exact H|].
  injection H as H. now apply IH.
Qed.

(** X11.  The error of a table, column or index operation tells which
    operation was called, except for one pair: two of these operations
    fail with the same error exactly when they are the same operation or
    are [addIndex] and [dropIndex], whose errors cannot be told apart on
    any connection and for any arguments. *)
Theorem ddl_errors_tell_operations_apart
  (op1 op2 : DDLOperation) (args1 args2 : list Js.Value) (s : State) :
  fst (callDDL op1 args1 s) = fst (callDDL op2 args2 s) <->
  op1 = op2 \/
  (op1 = OpAddIndex /\ op2 = OpDropIndex) \/
  (op1 = OpDropIndex /\ op2 = OpAddIndex).
Proof.
  rewrite !callDDL_rejects. cbn [fst]. split.
  - intros H. injection H as H. unfold notSupportedMessage in H.
    apply append_cancel_l in H. apply (proj2 (String.eqb_eq _ _)) in H.
    destruct op1, op2; vm_compute in H; try discriminate H; tauto.
  - intros [-> | [[-> ->] | [-> ->]]]; reflexivity.
Qed.

Lemma callOther_rejects (op : OtherOperation) (args : list Js.Value) (s : State) :
  callOther op args s =
  (Normal (Rejected (Error (notSupportedMessage (className (this s)) (otherName op)))), s).
Proof. destruct op; reflexivity. Qed.

(** X12.  [alterColumn] and the aggregate shorthands [average], [count],
    [min], [max] and [sum] are unsupported like the rest: on every
    connection, started or not, and for all arguments, the promise is
    rejected with the not-supported error that names the connection class
    and the method itself (for a shorthand, its own name and not
    [aggregate]), and the state is unchanged. *)
Theorem other_operation_is_unsupported_in_every_state
  (op : OtherOperation) (args : list Js.Value) (s : State) :
  (exists e,
     callOther op args s = (Normal (Rejected e), s) /\
     errorKind e = UnsupportedOperation /\
     errMessage e = notSupportedMessage (className (this s)) (otherName op) /\
     includes (otherName op) (errMessage e) = true /\
     includes (className (this s)) (errMessage e) = true) /\
  (forall h : option HTTPClient,
     fst (callOther op args (setHttpClient h s)) = fst (callOther op args s)).
Proof.
  split.
  - eexists. split; [apply callOther_rejects|].
    split; [apply notSupported_kind|].
    split; [reflexivity|].
    split; [apply notSupported_names_label | apply notSupported_names_class].
  - intros h. rewrite !callOther_rejects. reflexivity.
Qed.

(** ** Consuming [select] *)

Lemma pulls_completed (n : nat) (gen : AsyncGenerator) (s : State) :
  genState gen = Completed ->
  pulls n gen s
  = (Normal (repeat (Fulfilled (mkIteratorResult Js.Undefined true)) n, gen), s).
Proof.
  intros Hdone. induction n as [|n IH]; [reflexivity|].
  simpl. eapply bind_Normal.
  - unfold next. rewrite Hdone. reflexivity.
  - eapply bind_Normal; [exact IH | reflexivity].
Qed.

(** X13.  The sequence returned by [select] never yields a record and its
    body runs at most once: of any [n + 1] pulls the first is rejected
    with the not-supported error of [select] and each of the others
    reports [done]; no pull changes the state, so none reaches the
    transport. *)
Theorem select_never_yields
  (_queryEngine _options : Js.Value) (n : nat) (s : State) :
  exists gen gen',
    select _queryEngine _options s = (Normal gen, s) /\
    pulls (S n) gen s
      = (Normal (Rejected (Error (notSupportedMessage (className (this s)) "select"))
                 :: repeat (Fulfilled (mkIteratorResult Js.Undefined true)) n,
                 gen'), s) /\
    genState gen' = Completed.
Proof.
  eexists. exists (mkGenerator Completed (throwNotSupported "select")).
  split; [reflexivity|]. split; [|reflexivity].
  change (pulls (S n) ?g) with
    (pulled <- next g ;; rest <- pulls n (snd pulled) ;;
     ret (fst pulled :: fst rest, snd rest)).
  eapply bind_Normal; [reflexivity|]. cbn [snd fst].
  eapply bind_Normal; [apply pulls_completed; reflexivity | reflexivity].
Qed.
